(** * The shared-memory probe of tests/integration/project/files/test_shm.c

    The probe is a straight-line C program: it opens (or creates) the POSIX
    shared-memory object "/foo", unlinks it, closes the descriptor and
    returns.  Each step that fails prints a diagnostic on stderr and leaves
    through [exit].

    The program is embedded as a term of a small free monad over the library
    calls it makes.  A run interprets those calls against a platform (the C
    library and the kernel behind it), threads the process state and records
    the calls that reached the platform. *)

From Stdlib Require Import ZArith Lia Ascii String.
From stdpp Require Import base option gmap strings list pretty.

Local Open Scope string_scope.
Local Open Scope Z_scope.

(** ** Constants of the C library headers

    <fcntl.h>, <sys/stat.h> and <errno.h> are platform headers; the values
    are those of Linux/glibc, written in octal as the headers write them. *)

Definition octal (digits : list Z) : Z :=
  foldl (λ acc d, 8 * acc + d) 0 digits.

Definition O_RDONLY : Z := octal [0].
Definition O_WRONLY : Z := octal [1].
Definition O_RDWR : Z := octal [2].
Definition O_ACCMODE : Z := octal [3].
Definition O_CREAT : Z := octal [1; 0; 0].
Definition O_EXCL : Z := octal [2; 0; 0].

Definition S_IRUSR : Z := octal [4; 0; 0].
Definition S_IWUSR : Z := octal [2; 0; 0].
Definition S_IXUSR : Z := octal [1; 0; 0].
Definition S_IRWXU : Z := Z.lor S_IRUSR (Z.lor S_IWUSR S_IXUSR).
Definition S_IROTH : Z := octal [4].
Definition S_IWOTH : Z := octal [2].

#[global] Arguments O_RDONLY : simpl never.
#[global] Arguments O_CREAT : simpl never.
#[global] Arguments S_IRWXU : simpl never.

Definition ENOENT : Z := 2.
Definition EBADF : Z := 9.
Definition EACCES : Z := 13.
Definition EEXIST : Z := 17.
Definition EMFILE : Z := 24.

(** The line feed that C writes as a backslash followed by n. *)
Definition LF : string := String "010"%char EmptyString.

(** ** Library calls and programs *)

Inductive stream : Type := stdout | stderr.

(** The calls of the probe, indexed by the type of what they give back.
    [errno] is the read of the errno variable; [exit] gives nothing back. *)
Inductive call : Type → Type :=
| shm_open (name : string) (oflag : Z) (mode : Z) : call Z
| shm_unlink (name : string) : call Z
| close (fd : Z) : call Z
| errno : call Z
| strerror (errnum : Z) : call string
| fprintf (f : stream) (format : string) (args : list string) : call Z
| exit (status : Z) : call Empty_set.

Inductive prog (A : Type) : Type :=
| Ret (a : A)
| Do {X : Type} (c : call X) (k : X → prog A).

Arguments Ret {A} a.
Arguments Do {A X} c k.

Fixpoint bind {A B : Type} (m : prog A) (f : A → prog B) : prog B :=
  match m with
  | Ret a => f a
  | Do c k => Do c (λ x, bind (k x) f)
  end.

#[export] Instance prog_ret : MRet prog := @Ret.
#[export] Instance prog_bind : MBind prog := λ A B f m, bind m f.

Definition perform {X : Type} (c : call X) : prog X := Do c Ret.

(** A statement after [exit] is never reached: the call has no result. *)
Definition halt {A : Type} (status : Z) : prog A :=
  Do (exit status) (λ v : Empty_set, match v with end).

(** [if (c) { body }] with no else branch. *)
Definition when (c : bool) (body : prog unit) : prog unit :=
  if c then body else mret tt.

(** ** The program *)

Definition main : prog Z :=
  fd ← perform (shm_open "/foo" (Z.lor O_RDONLY O_CREAT) S_IRWXU);
  when (fd <? 0) (
    e ← perform errno;
    reason ← perform (strerror e);
    perform (fprintf stderr ("Failed to open shm: %s" +:+ LF) [reason]);;
    halt 1);;
  success ← perform (shm_unlink "/foo");
  when (success <? 0) (
    e ← perform errno;
    reason ← perform (strerror e);
    perform (fprintf stderr ("Failed to close shm: %s" +:+ LF) [reason]);;
    halt 2);;
  perform (close fd);;
  mret 0.

(** The C runtime calls [main] and passes what it returns to [exit]. *)
Definition crt_start : prog Empty_set :=
  status ← main; halt status.

(** ** printf-style formatting

    Of the conversions only %s is given; it is the one the probe uses.
    A doubled percent sign stands for a percent sign. *)

Fixpoint format (fmt : string) (args : list string) : string :=
  match fmt with
  | EmptyString => EmptyString
  | String "%" (String "s" rest) =>
      match args with
      | a :: args' => a +:+ format rest args'
      | [] => format rest []
      end
  | String "%" (String "%" rest) => String "%" (format rest args)
  | String c rest => String c (format rest args)
  end.

(** ** The platform

    What [shm_open], [shm_unlink] and [close] do is owned by the platform.
    A platform is any state type with these operations; each returns the
    C [int] the caller sees (negative on failure) and the next state, from
    which [errno] is read.  [plat_strerror] is the table of error texts. *)

Class Platform (W : Type) : Type := {
  plat_shm_open : string → Z → Z → W → Z * W;
  plat_shm_unlink : string → W → Z * W;
  plat_close : Z → W → Z * W;
  plat_errno : W → Z;
  plat_strerror : Z → string }.

(** What a run leaves behind for an observer: one entry per call that
    reaches the platform or a stream, with its arguments and result. *)
Inductive event : Type :=
| ev_shm_open (name : string) (oflag mode : Z) (ret : Z)
| ev_shm_unlink (name : string) (ret : Z)
| ev_close (fd : Z) (ret : Z)
| ev_fprintf (f : stream) (text : string)
| ev_exit (status : Z).

Record process (W : Type) : Type := Process {
  world : W;
  stdout_text : string;
  stderr_text : string;
  trace : list event }.

Arguments Process {W} _ _ _ _.
Arguments world {W} _.
Arguments stdout_text {W} _.
Arguments stderr_text {W} _.
Arguments trace {W} _.

Inductive outcome (A : Type) : Type :=
| Returned (a : A)
| Exited (status : Z).

Arguments Returned {A} a.
Arguments Exited {A} status.

Section Run.
Context {W : Type} `{!Platform W}.

Definition log (e : event) (p : process W) : process W :=
  Process (world p) (stdout_text p) (stderr_text p) (trace p ++ [e]).

Definition set_world (w : W) (p : process W) : process W :=
  Process w (stdout_text p) (stderr_text p) (trace p).

Definition write (f : stream) (text : string) (p : process W) : process W :=
  match f with
  | stdout => Process (world p) (stdout_text p +:+ text) (stderr_text p) (trace p)
  | stderr => Process (world p) (stdout_text p) (stderr_text p +:+ text) (trace p)
  end.

(** One call: its result (or the status the process exits with) and the
    process afterwards. *)
Definition step {X : Type} (c : call X) (p : process W)
  : (X + Z) * process W :=
  match c in call T return (T + Z) * process W with
  | shm_open name oflag mode =>
      let '(r, w) := plat_shm_open name oflag mode (world p) in
      (inl r, log (ev_shm_open name oflag mode r) (set_world w p))
  | shm_unlink name =>
      let '(r, w) := plat_shm_unlink name (world p) in
      (inl r, log (ev_shm_unlink name r) (set_world w p))
  | close fd =>
      let '(r, w) := plat_close fd (world p) in
      (inl r, log (ev_close fd r) (set_world w p))
  | errno => (inl (plat_errno (world p)), p)
  | strerror errnum => (inl (plat_strerror errnum), p)
  | fprintf f fmt args =>
      let text := format fmt args in
      (inl (Z.of_nat (String.length text)),
       log (ev_fprintf f text) (write f text p))
  | exit status => (inr status, log (ev_exit status) p)
  end.

Fixpoint run {A : Type} (m : prog A) (p : process W)
  : outcome A * process W :=
  match m with
  | Ret a => (Returned a, p)
  | Do c k =>
      match step c p with
      | (inl x, p') => run (k x) p'
      | (inr status, p') => (Exited status, p')
      end
  end.

(** A fresh process image on platform state [w]. *)
Definition spawn (w : W) : process W :=
  Process w EmptyString EmptyString [].

(** The status a waiting parent reads: the low eight bits of what was
    passed to [exit]. *)
Definition wait_status (status : Z) : Z := Z.land status 255.

(** One run of the probe: exit status and the process as it ended. *)
Definition run_probe (w : W) : Z * process W :=
  match run crt_start (spawn w) with
  | (Exited status, p) => (wait_status status, p)
  | (Returned v, _) => match v with end
  end.

Definition exit_status (w : W) : Z := fst (run_probe w).
Definition final (w : W) : process W := snd (run_probe w).

End Run.

(** ** The three ways a run can go

    The process a run ends in, written out for each of the three paths
    through [main]. *)

Section Paths.
Context {W : Type} `{!Platform W}.

Definition open_diagnostic (reason : string) : string :=
  "Failed to open shm: " +:+ reason +:+ LF.

Definition unlink_diagnostic (reason : string) : string :=
  "Failed to close shm: " +:+ reason +:+ LF.

Definition the_open (ret : Z) : event :=
  ev_shm_open "/foo" (Z.lor O_RDONLY O_CREAT) S_IRWXU ret.

Definition open_failed (w1 : W) (fd : Z) : process W :=
  let text := open_diagnostic (plat_strerror (plat_errno w1)) in
  Process w1 EmptyString text
    [the_open fd; ev_fprintf stderr text; ev_exit 1].

Definition unlink_failed (w2 : W) (fd r : Z) : process W :=
  let text := unlink_diagnostic (plat_strerror (plat_errno w2)) in
  Process w2 EmptyString text
    [the_open fd; ev_shm_unlink "/foo" r; ev_fprintf stderr text; ev_exit 2].

Definition succeeded (w3 : W) (fd r c : Z) : process W :=
  Process w3 EmptyString EmptyString
    [the_open fd; ev_shm_unlink "/foo" r; ev_close fd c; ev_exit 0].

(** Whether [word] occurs somewhere in [text]. *)
Fixpoint mentions (word text : string) : bool :=
  String.prefix word text
  || match text with
     | EmptyString => false
     | String _ rest => mentions word rest
     end.

Definition is_open (e : event) : bool :=
  match e with ev_shm_open _ _ _ _ => true | _ => false end.

End Paths.

(** ** What the platform answers to the probe's calls

    The results of the three platform calls of [main], in program order,
    from the state the process starts in. *)

Section Results.
Context {W : Type} `{!Platform W}.

Definition open_result (w : W) : Z * W :=
  plat_shm_open "/foo" (Z.lor O_RDONLY O_CREAT) S_IRWXU w.

Definition unlink_result (w : W) : Z * W :=
  plat_shm_unlink "/foo" (open_result w).2.

Definition close_result (w : W) : Z * W :=
  plat_close (open_result w).1 (unlink_result w).2.

End Results.

(** ** A reference platform

    The usual behaviour of the shared-memory operations, for the claims
    that speak of the namespace: objects live in a namespace keyed by name,
    descriptors in a table with the lowest free slot handed out first.
    Access is decided by the owner and other permission classes (groups
    are left out), object creation keeps the permission bits the caller
    passes (no file mode creation mask is applied), and only the owner or
    the superuser may unlink. *)

Record shm_object : Type := ShmObject {
  obj_mode : Z;
  obj_uid : Z }.

(** An open file description: the object it was opened on and the access
    mode it was opened with. *)
Record open_file : Type := OpenFile {
  of_name : string;
  of_accmode : Z }.

Record kernel : Type := Kernel {
  shm : gmap string shm_object;
  fdtable : list (option open_file);
  euid : Z;
  errno_var : Z }.

Definition fail_with (e : Z) (k : kernel) : Z * kernel :=
  (-1, Kernel (shm k) (fdtable k) (euid k) e).

Definition has (flag bits : Z) : bool := Z.land bits flag =? flag.

Fixpoint free_slot (t : list (option open_file)) : option nat :=
  match t with
  | [] => None
  | None :: _ => Some 0%nat
  | Some _ :: t' => S <$> free_slot t'
  end.

Definition wants_read (accmode : Z) : bool :=
  (accmode =? O_RDONLY) || (accmode =? O_RDWR).

Definition wants_write (accmode : Z) : bool :=
  (accmode =? O_WRONLY) || (accmode =? O_RDWR).

Definition may_access (k : kernel) (o : shm_object) (accmode : Z) : bool :=
  if euid k =? 0 then true
  else
    let '(rbit, wbit) :=
      if euid k =? obj_uid o then (S_IRUSR, S_IWUSR) else (S_IROTH, S_IWOTH) in
    (negb (wants_read accmode) || has rbit (obj_mode o))
    && (negb (wants_write accmode) || has wbit (obj_mode o)).

Definition install (fd : nat) (f : open_file) (ns : gmap string shm_object)
    (k : kernel) : Z * kernel :=
  (Z.of_nat fd,
   Kernel ns (<[fd := Some f]> (fdtable k)) (euid k) (errno_var k)).

Definition k_shm_open (name : string) (oflag mode : Z) (k : kernel)
  : Z * kernel :=
  let accmode := Z.land oflag O_ACCMODE in
  match free_slot (fdtable k) with
  | None => fail_with EMFILE k
  | Some fd =>
      match shm k !! name with
      | Some o =>
          if has O_CREAT oflag && has O_EXCL oflag then fail_with EEXIST k
          else if may_access k o accmode
               then install fd (OpenFile name accmode) (shm k) k
               else fail_with EACCES k
      | None =>
          if has O_CREAT oflag
          then install fd (OpenFile name accmode)
                 (<[name := ShmObject (Z.land mode (octal [7; 7; 7])) (euid k)]>
                    (shm k)) k
          else fail_with ENOENT k
      end
  end.

Definition k_shm_unlink (name : string) (k : kernel) : Z * kernel :=
  match shm k !! name with
  | None => fail_with ENOENT k
  | Some o =>
      if (euid k =? 0) || (euid k =? obj_uid o)
      then (0, Kernel (delete name (shm k)) (fdtable k) (euid k) (errno_var k))
      else fail_with EACCES k
  end.

Definition k_close (fd : Z) (k : kernel) : Z * kernel :=
  if fd <? 0 then fail_with EBADF k
  else
    match fdtable k !! Z.to_nat fd with
    | Some (Some _) =>
        (0, Kernel (shm k) (<[Z.to_nat fd := None]> (fdtable k))
              (euid k) (errno_var k))
    | _ => fail_with EBADF k
    end.

Definition k_strerror (errnum : Z) : string :=
  if errnum =? ENOENT then "No such file or directory"
  else if errnum =? EBADF then "Bad file descriptor"
  else if errnum =? EACCES then "Permission denied"
  else if errnum =? EEXIST then "File exists"
  else if errnum =? EMFILE then "Too many open files"
  else "Unknown error " +:+ pretty errnum.

#[export] Instance kernel_platform : Platform kernel := {
  plat_shm_open := k_shm_open;
  plat_shm_unlink := k_shm_unlink;
  plat_close := k_close;
  plat_errno := errno_var;
  plat_strerror := k_strerror }.

(** A process with stdin, stdout and stderr open and room for more. *)
Definition tty : option open_file := Some (OpenFile "/dev/tty" O_RDWR).

Definition boot (uid : Z) (ns : gmap string shm_object) (slots : nat)
  : kernel :=
  Kernel ns ([tty; tty; tty] ++ replicate slots None) uid 0.

(** Four starting states for user 1000: an empty namespace with free
    descriptors; no free descriptor; "/foo" owned by user 1001 and closed
    to others; "/foo" owned by user 1001 and readable by others. *)
Definition clean : kernel := boot 1000 ∅ 5.

Definition full_table : kernel := boot 1000 ∅ 0.

Definition foreign_private : kernel :=
  boot 1000 {[ "/foo" := ShmObject (octal [6; 0; 0]) 1001 ]} 3.

Definition foreign_readable : kernel :=
  boot 1000 {[ "/foo" := ShmObject (octal [6; 4; 4]) 1001 ]} 3.

(** A fifth starting state: "/foo" is there and belongs to the caller. *)
Definition own_object : kernel :=
  boot 1000 {[ "/foo" := ShmObject (octal [6; 0; 0]) 1000;
               "/bar" := ShmObject (octal [6; 4; 4]) 1001 ]} 3.

(** The platform state one run of the probe hands to the next. *)
Definition rerun (k : kernel) : kernel := world (final k).

(** Which step of the probe an event belongs to. *)
Definition is_unlink (e : event) : bool :=
  match e with ev_shm_unlink _ _ => true | _ => false end.

Definition is_close (e : event) : bool :=
  match e with ev_close _ _ => true | _ => false end.

(** What the reference platform lets a caller unlink: its own objects,
    and everything for the superuser (the test [k_shm_unlink] makes). *)
Definition may_unlink (k : kernel) (o : shm_object) : bool :=
  (euid k =? 0) || (euid k =? obj_uid o).

(** ** The file mode creation mask

    A process creates objects through its file mode creation mask: the
    permission bits the mask has are taken out of the mode the caller
    passes.  [masked] is a process on the reference platform together with
    its mask; the mask bears on [shm_open] only. *)

Record masked : Type := Masked {
  base : kernel;
  umask : Z }.

Definition with_mask (m : masked) (r : Z * kernel) : Z * masked :=
  (r.1, Masked r.2 (umask m)).

Definition m_shm_open (name : string) (oflag mode : Z) (m : masked)
  : Z * masked :=
  with_mask m
    (k_shm_open name oflag (Z.land mode (Z.lnot (umask m))) (base m)).

Definition m_shm_unlink (name : string) (m : masked) : Z * masked :=
  with_mask m (k_shm_unlink name (base m)).

Definition m_close (fd : Z) (m : masked) : Z * masked :=
  with_mask m (k_close fd (base m)).

#[export] Instance masked_platform : Platform masked := {
  plat_shm_open := m_shm_open;
  plat_shm_unlink := m_shm_unlink;
  plat_close := m_close;
  plat_errno := λ m, errno_var (base m);
  plat_strerror := k_strerror }.

(** The empty namespace with free descriptors, under two masks: the
    common 022, and 0277, which takes the owner's write bit. *)
Definition masked_022 : masked := Masked clean (octal [2; 2]).

Definition masked_0277 : masked := Masked clean (octal [2; 7; 7]).

(** * The hello programs of doc/examples

    doc/examples/composition/files/hello/hello.c and
    doc/examples/filtering/files/hello/hello.c greet the person named by
    the first command line argument.  [hello] itself comes from libhello,
    which is not among these sources: a run is the list of the arguments
    [hello] was called with, in order, and the value [main] returns.

    [argv] is the array of argument pointers, a null pointer being [None].
    Reading it past its end is undefined in C; such a run is [None]. *)

Definition hello_run : Type := list string * Z.

Module Composition.

Definition main (argc : Z) (argv : list (option string)) : option hello_run :=
  let person : option string := None in
  person ← (if 1 <? argc then argv !! 1%nat else Some person);
  Some (match person with
        | Some name => [name]
        | None => ["stranger"]
        end, 0).

End Composition.

(** The filtering example takes the fallback name from the macro
    DEFAULT_PERSON when the build defines it (to a string literal). *)
Module Filtering.

Definition main (DEFAULT_PERSON : option string)
    (argc : Z) (argv : list (option string)) : option hello_run :=
  let person : option string := None in
  person ← (if 1 <? argc then argv !! 1%nat else Some person);
  Some (match person with
        | Some name => [name]
        | None =>
            match DEFAULT_PERSON with
            | Some name => [name]
            | None => ["stranger"]
            end
        end, 0).

End Filtering.

(** What a hosted C environment passes to [main] for the program name and
    arguments [args]: [argc] counts them, and [argv] holds a pointer to
    each, followed by a null pointer. *)
Definition argc_of (args : list string) : Z := Z.of_nat (length args).

Definition argv_of (args : list string) : list (option string) :=
  (Some <$> args) ++ [None].

(** * The pony header

    tests/frontend/track-optional-project-refs/files/usr/include/pony.h:
    MAKE_PONY(story) puts three string literals side by side, which the
    compiler joins into one. *)

Definition PONY_BEGIN : string := "Once upon a time, there was a pony.".

Definition PONY_END : string := "And they lived happily ever after, the end.".

Definition MAKE_PONY (story : string) : string :=
  PONY_BEGIN +:+ story +:+ PONY_END.

(** * Properties *)

(** ** Formatting and the interpreter *)

Example octal_700 : octal [7; 0; 0] = 448.
Proof. reflexivity. Qed.

Lemma format_open_diagnostic (reason : string) :
  format ("Failed to open shm: %s" +:+ LF) [reason] = open_diagnostic reason.
Proof. reflexivity. Qed.

Lemma format_unlink_diagnostic (reason : string) :
  format ("Failed to close shm: %s" +:+ LF) [reason] = unlink_diagnostic reason.
Proof. reflexivity. Qed.

Section PathLemmas.
Context {W : Type} `{!Platform W}.
Implicit Types (w : W) (fd r c : Z).

(** Running a sequence runs its first part and, unless that exits, goes on
    with the second from where the first stopped. *)
Lemma run_bind {A B : Type} (m : prog A) (f : A → prog B) (p : process W) :
  run (m ≫= f) p =
    match run m p with
    | (Returned a, p') => run (f a) p'
    | (Exited status, p') => (Exited status, p')
    end.
Proof.
  revert p. induction m as [a|X c k IH]; intros p.
  - reflexivity.
  - change (Do c k ≫= f) with (Do c (λ x, k x ≫= f)). cbn [run].
    destruct (step c p) as [[x|status] p'].
    + apply IH.
    + reflexivity.
Qed.

(** A run of the whole process never falls off the end of [main]: it ends
    in [exit]. *)
Lemma run_crt_start_exits (p : process W) :
  ∃ status p', run crt_start p = (Exited status, p').
Proof.
  unfold crt_start. rewrite run_bind.
  destruct (run main p) as [[v|status] p'].
  - cbn. eexists _, _. reflexivity.
  - eexists _, _. reflexivity.
Qed.

Lemma run_open_failed w w1 fd :
  plat_shm_open "/foo" (Z.lor O_RDONLY O_CREAT) S_IRWXU w = (fd, w1) →
  fd < 0 →
  run_probe w = (1, open_failed w1 fd).
Proof.
  intros Hopen Hneg. apply Z.ltb_lt in Hneg.
  unfold run_probe. cbn. rewrite Hopen. cbn. rewrite Hneg. reflexivity.
Qed.

Lemma run_unlink_failed w w1 w2 fd r :
  plat_shm_open "/foo" (Z.lor O_RDONLY O_CREAT) S_IRWXU w = (fd, w1) →
  0 ≤ fd →
  plat_shm_unlink "/foo" w1 = (r, w2) →
  r < 0 →
  run_probe w = (2, unlink_failed w2 fd r).
Proof.
  intros Hopen Hfd Hunlink Hneg.
  apply Z.ltb_ge in Hfd. apply Z.ltb_lt in Hneg.
  unfold run_probe. cbn. rewrite Hopen. cbn. rewrite Hfd. cbn.
  rewrite Hunlink. cbn. rewrite Hneg. reflexivity.
Qed.

Lemma run_succeeded w w1 w2 w3 fd r c :
  plat_shm_open "/foo" (Z.lor O_RDONLY O_CREAT) S_IRWXU w = (fd, w1) →
  0 ≤ fd →
  plat_shm_unlink "/foo" w1 = (r, w2) →
  0 ≤ r →
  plat_close fd w2 = (c, w3) →
  run_probe w = (0, succeeded w3 fd r c).
Proof.
  intros Hopen Hfd Hunlink Hr Hclose.
  apply Z.ltb_ge in Hfd. apply Z.ltb_ge in Hr.
  unfold run_probe. cbn. rewrite Hopen. cbn. rewrite Hfd. cbn.
  rewrite Hunlink. cbn. rewrite Hr. cbn. rewrite Hclose. reflexivity.
Qed.

End PathLemmas.

Section ResultLemmas.
Context {W : Type} `{!Platform W}.

Lemma run_probe_open_failed (w : W) :
  (open_result w).1 < 0 →
  run_probe w = (1, open_failed (open_result w).2 (open_result w).1).
Proof.
  intros Hneg. eapply run_open_failed; [|exact Hneg].
  unfold open_result. apply surjective_pairing.
Qed.

Lemma run_probe_unlink_failed (w : W) :
  0 ≤ (open_result w).1 →
  (unlink_result w).1 < 0 →
  run_probe w =
    (2, unlink_failed (unlink_result w).2 (open_result w).1 (unlink_result w).1).
Proof.
  intros Hfd Hneg.
  eapply run_unlink_failed; [| exact Hfd | | exact Hneg].
  - unfold open_result. apply surjective_pairing.
  - apply surjective_pairing.
Qed.

Lemma run_probe_succeeded (w : W) :
  0 ≤ (open_result w).1 →
  0 ≤ (unlink_result w).1 →
  run_probe w =
    (0, succeeded (close_result w).2 (open_result w).1 (unlink_result w).1
          (close_result w).1).
Proof.
  intros Hfd Hr.
  eapply run_succeeded; [| exact Hfd | | exact Hr |].
  - unfold open_result. apply surjective_pairing.
  - apply surjective_pairing.
  - apply surjective_pairing.
Qed.

(** Every run takes one of the three paths. *)
Lemma run_probe_paths (w : W) :
  ((open_result w).1 < 0 ∧
   run_probe w = (1, open_failed (open_result w).2 (open_result w).1))
  ∨ (0 ≤ (open_result w).1 ∧ (unlink_result w).1 < 0 ∧
     run_probe w =
       (2, unlink_failed (unlink_result w).2 (open_result w).1
             (unlink_result w).1))
  ∨ (0 ≤ (open_result w).1 ∧ 0 ≤ (unlink_result w).1 ∧
     run_probe w =
       (0, succeeded (close_result w).2 (open_result w).1
             (unlink_result w).1 (close_result w).1)).
Proof.
  destruct (Z_lt_le_dec (open_result w).1 0) as [Ho|Ho].
  { left. split; [exact Ho | exact (run_probe_open_failed w Ho)]. }
  right. destruct (Z_lt_le_dec (unlink_result w).1 0) as [Hu|Hu].
  - left. repeat split; [exact Ho | exact Hu |].
    exact (run_probe_unlink_failed w Ho Hu).
  - right. repeat split; [exact Ho | exact Hu |].
    exact (run_probe_succeeded w Ho Hu).
Qed.

End ResultLemmas.

(** ** The reference platform *)

Lemma free_slot_lookup (t : list (option open_file)) (i : nat) :
  free_slot t = Some i → t !! i = Some None.
Proof.
  revert i. induction t as [|[f|] t IH]; intros i Hfree; cbn in Hfree.
  - discriminate.
  - destruct (free_slot t) as [j|]; [|discriminate].
    injection Hfree as <-. cbn. apply IH. reflexivity.
  - injection Hfree as <-. reflexivity.
Qed.

Lemma free_slot_lowest (t : list (option open_file)) (i j : nat) :
  free_slot t = Some i → (j < i)%nat → t !! j ≠ Some None.
Proof.
  revert i j. induction t as [|[f|] t IH]; intros i j Hfree Hlt; cbn in Hfree.
  - discriminate.
  - destruct (free_slot t) as [i'|] eqn:Hi'; [|discriminate].
    injection Hfree as <-. destruct j as [|j]; [discriminate|].
    cbn. apply (IH i'); [reflexivity | lia].
  - injection Hfree as <-. lia.
Qed.

Lemma free_slot_elem_of (t : list (option open_file)) :
  None ∈ t → is_Some (free_slot t).
Proof.
  induction t as [|[f|] t IH]; intros Hin.
  - apply elem_of_nil in Hin. destruct Hin.
  - apply elem_of_cons in Hin as [Hin|Hin]; [discriminate|].
    destruct (IH Hin) as [i Hi]. cbn. rewrite Hi. eexists. reflexivity.
  - cbn. eexists. reflexivity.
Qed.

(** The probe's open call on a namespace without the name creates the
    object with the mode passed and hands out the lowest free slot. *)
Lemma open_creates (k : kernel) (i : nat) :
  free_slot (fdtable k) = Some i →
  shm k !! "/foo" = None →
  open_result k =
    (Z.of_nat i,
     Kernel (<["/foo" := ShmObject S_IRWXU (euid k)]> (shm k))
       (<[i := Some (OpenFile "/foo" O_RDONLY)]> (fdtable k))
       (euid k) (errno_var k)).
Proof.
  intros Hfree Habsent. unfold open_result. cbn [plat_shm_open kernel_platform].
  unfold k_shm_open. rewrite Hfree, Habsent. reflexivity.
Qed.

(** On a namespace that has the name it opens the object that is there,
    when the caller may read it, and refuses with EACCES when not. *)
Lemma open_existing (k : kernel) (i : nat) (o : shm_object) :
  free_slot (fdtable k) = Some i →
  shm k !! "/foo" = Some o →
  open_result k =
    (if may_access k o O_RDONLY
     then (Z.of_nat i,
           Kernel (shm k) (<[i := Some (OpenFile "/foo" O_RDONLY)]> (fdtable k))
             (euid k) (errno_var k))
     else (-1, Kernel (shm k) (fdtable k) (euid k) EACCES)).
Proof.
  intros Hfree Hthere. unfold open_result. cbn [plat_shm_open kernel_platform].
  unfold k_shm_open. rewrite Hfree, Hthere. reflexivity.
Qed.

Lemma open_table_full (k : kernel) :
  free_slot (fdtable k) = None →
  open_result k = (-1, Kernel (shm k) (fdtable k) (euid k) EMFILE).
Proof.
  intros Hfull. unfold open_result. cbn [plat_shm_open kernel_platform].
  unfold k_shm_open. rewrite Hfull. reflexivity.
Qed.

(** A whole run from a namespace without the name: the object is created,
    unlinked, the descriptor closed, and the kernel is as it was. *)
Lemma run_probe_fresh (k : kernel) (i : nat) :
  free_slot (fdtable k) = Some i →
  shm k !! "/foo" = None →
  run_probe k = (0, succeeded k (Z.of_nat i) 0 0).
Proof.
  intros Hfree Habsent.
  pose proof (free_slot_lookup _ _ Hfree) as Hslot.
  pose proof (lookup_lt_Some _ _ _ Hslot) as Hlen.
  eapply run_succeeded.
  - exact (open_creates k i Hfree Habsent).
  - lia.
  - cbn [plat_shm_unlink kernel_platform]. unfold k_shm_unlink. cbn [shm euid].
    rewrite lookup_insert_eq. cbn [obj_uid].
    rewrite Z.eqb_refl, orb_true_r. reflexivity.
  - lia.
  - cbn [plat_close kernel_platform]. unfold k_close. cbn [fdtable shm euid errno_var].
    destruct (Z.ltb_spec (Z.of_nat i) 0) as [Hneg|_]; [lia|].
    rewrite Nat2Z.id, list_lookup_insert_eq by exact Hlen.
    rewrite list_insert_insert_eq, (list_insert_id _ _ _ Hslot).
    rewrite delete_insert_id by exact Habsent.
    destruct k; reflexivity.
Qed.

(** ** The probe on any platform *)

(** Membership in a trace that is written out. *)
Ltac not_in_trace :=
  let Hin := fresh "Hin" in
  intros; unfold open_failed, unlink_failed, succeeded, the_open;
  cbn [trace]; rewrite ?elem_of_cons, elem_of_nil;
  intros Hin; repeat destruct Hin as [Hin|Hin]; try discriminate Hin;
  exact Hin.

(** The two diagnostics differ in their eleventh character, whatever the
    reasons are. *)
Lemma open_text_is_not_unlink_text (r1 r2 : string) :
  open_diagnostic r1 ≠ unlink_diagnostic r2.
Proof.
  intros Heq. apply (f_equal (String.get 10)) in Heq. discriminate Heq.
Qed.

Section Probe.
Context {W : Type} `{!Platform W}.

(** [main] calls [shm_open] once, whatever path the run takes. *)
Lemma single_open_call (w : W) :
  List.filter is_open (trace (final w)) =
    [ev_shm_open "/foo" (Z.lor O_RDONLY O_CREAT) S_IRWXU (open_result w).1].
Proof.
  unfold final.
  destruct (run_probe_paths w) as [[_ ->]|[(_ & _ & ->)|(_ & _ & ->)]];
    reflexivity.
Qed.

(** C1: when the open-or-create of the object fails, the probe writes
    "Failed to open shm: " followed by the platform's text for errno and a
    line feed to stderr, exits with status 1 and never calls shm_unlink:
    the run consists of the open, the fprintf and the exit, and the
    platform is left as the failed open left it. *)
Theorem open_failure_reported (w : W) :
  (open_result w).1 < 0 →
  exit_status w = 1
  ∧ stderr_text (final w) =
      "Failed to open shm: "
        +:+ plat_strerror (plat_errno (open_result w).2) +:+ LF
  ∧ trace (final w) =
      [ev_shm_open "/foo" (Z.lor O_RDONLY O_CREAT) S_IRWXU (open_result w).1;
       ev_fprintf stderr (stderr_text (final w));
       ev_exit 1]
  ∧ (∀ name r, ev_shm_unlink name r ∉ trace (final w))
  ∧ world (final w) = (open_result w).2.
Proof.
  intros Hneg. unfold exit_status, final.
  rewrite (run_probe_open_failed w Hneg). cbn [fst snd].
  repeat split. not_in_trace.
Qed.

(** C2: when the open succeeds and the unlink fails, the probe writes a
    diagnostic holding the platform's text for errno to stderr and exits
    with status 2. *)
Theorem unlink_failure_reported (w : W) :
  0 ≤ (open_result w).1 →
  (unlink_result w).1 < 0 →
  exit_status w = 2
  ∧ stderr_text (final w) =
      "Failed to close shm: "
        +:+ plat_strerror (plat_errno (unlink_result w).2) +:+ LF
  ∧ trace (final w) =
      [ev_shm_open "/foo" (Z.lor O_RDONLY O_CREAT) S_IRWXU (open_result w).1;
       ev_shm_unlink "/foo" (unlink_result w).1;
       ev_fprintf stderr (stderr_text (final w));
       ev_exit 2]
  ∧ world (final w) = (unlink_result w).2.
Proof.
  intros Hfd Hneg. unfold exit_status, final.
  rewrite (run_probe_unlink_failed w Hfd Hneg). cbn [fst snd].
  repeat split.
Qed.

(** C3: when the open and the unlink both succeed, the probe calls close
    on the descriptor the open returned, as its last call before it
    terminates, and the exit status is 0. *)
Theorem success_closes_descriptor (w : W) :
  0 ≤ (open_result w).1 →
  0 ≤ (unlink_result w).1 →
  exit_status w = 0
  ∧ trace (final w) =
      [ev_shm_open "/foo" (Z.lor O_RDONLY O_CREAT) S_IRWXU (open_result w).1;
       ev_shm_unlink "/foo" (unlink_result w).1;
       ev_close (open_result w).1 (close_result w).1;
       ev_exit 0]
  ∧ world (final w) = (close_result w).2
  ∧ stderr_text (final w) = EmptyString.
Proof.
  intros Hfd Hr. unfold exit_status, final.
  rewrite (run_probe_succeeded w Hfd Hr). cbn [fst snd].
  repeat split.
Qed.

(** C8: a run that ends with exit status 1 or 2 never calls close. *)
Theorem failure_paths_skip_close (w : W) :
  exit_status w = 1 ∨ exit_status w = 2 →
  ∀ fd c, ev_close fd c ∉ trace (final w).
Proof.
  unfold exit_status, final.
  destruct (run_probe_paths w) as [[_ ->]|[(_ & _ & ->)|(_ & _ & ->)]];
    cbn [fst snd]; intros Hstatus.
  - not_in_trace.
  - not_in_trace.
  - destruct Hstatus; discriminate.
Qed.

(** C10, amended: on the unlink-failure path the text written to stderr is
    "Failed to close shm: " followed by the reason and a line feed; the
    fixed part of the message names a close and does not name an unlink,
    and the exit status is 2.  The two failure paths are told apart by the
    exit status and also by the text: the text of a run whose open failed,
    on any platform and with any reason, starts "Failed to open shm: " and
    is never the text of this run. *)
Theorem unlink_diagnostic_names_close (w : W) :
  0 ≤ (open_result w).1 →
  (unlink_result w).1 < 0 →
  stderr_text (final w) =
    "Failed to close shm: "
      +:+ plat_strerror (plat_errno (unlink_result w).2) +:+ LF
  ∧ ev_fprintf stderr (stderr_text (final w)) ∈ trace (final w)
  ∧ stderr_text (final w) =
      unlink_diagnostic (plat_strerror (plat_errno (unlink_result w).2))
  ∧ mentions "close" (unlink_diagnostic EmptyString) = true
  ∧ mentions "unlink" (unlink_diagnostic EmptyString) = false
  ∧ mentions "open" (unlink_diagnostic EmptyString) = false
  ∧ exit_status w = 2
  ∧ (∀ (W' : Type) (P' : Platform W') (w' : W'),
       (open_result w').1 < 0 →
       exit_status w' = 1
       ∧ stderr_text (final w') =
           "Failed to open shm: "
             +:+ plat_strerror (plat_errno (open_result w').2) +:+ LF
       ∧ stderr_text (final w') ≠ stderr_text (final w)).
Proof.
  intros Hfd Hneg. unfold exit_status, final.
  rewrite (run_probe_unlink_failed w Hfd Hneg). cbn [fst snd].
  unfold unlink_failed. cbn [stderr_text trace].
  do 6 (split; [first [reflexivity | rewrite !elem_of_cons; auto]|]).
  split; [reflexivity|].
  intros W' P' w' Hfailed.
  rewrite (run_probe_open_failed w' Hfailed). cbn [fst snd].
  unfold open_failed. cbn [stderr_text].
  repeat split. exact (open_text_is_not_unlink_text _ _).
Qed.

End Probe.

(** C4: the exit status of a run is 0, 1 or 2 and tells which path was
    taken: 1 when the open failed, 2 when the open succeeded and the unlink
    failed, 0 when both succeeded; the run ends with the exit of that
    status.  Each of the three is the status of some run. *)
Theorem three_exit_statuses :
  (∀ (W : Type) (P : Platform W) (w : W),
     ((exit_status w = 0 ∧ 0 ≤ (open_result w).1 ∧ 0 ≤ (unlink_result w).1)
      ∨ (exit_status w = 1 ∧ (open_result w).1 < 0)
      ∨ (exit_status w = 2 ∧ 0 ≤ (open_result w).1 ∧ (unlink_result w).1 < 0))
     ∧ last (trace (final w)) = Some (ev_exit (exit_status w)))
  ∧ exit_status clean = 0
  ∧ exit_status full_table = 1
  ∧ exit_status foreign_readable = 2.
Proof.
  split; [|repeat split; vm_compute; reflexivity].
  intros W P w. unfold exit_status, final.
  destruct (run_probe_paths w) as [[Ho ->]|[(Ho & Hu & ->)|(Ho & Hu & ->)]];
    cbn [fst snd]; (split; [|reflexivity]).
  - right. left. split; [reflexivity | exact Ho].
  - right. right. repeat split; [exact Ho | exact Hu].
  - left. repeat split; [exact Ho | exact Hu].
Qed.

(** ** The probe on the reference platform *)

Lemma fresh_run (k : kernel) (i : nat) :
  free_slot (fdtable k) = Some i →
  shm k !! "/foo" = None →
  exit_status k = 0
  ∧ world (final k) = k
  ∧ trace (final k) =
      [ev_shm_open "/foo" (Z.lor O_RDONLY O_CREAT) S_IRWXU (Z.of_nat i);
       ev_shm_unlink "/foo" 0; ev_close (Z.of_nat i) 0; ev_exit 0]
  ∧ "/foo" ∈ dom (shm (open_result k).2)
  ∧ "/foo" ∉ dom (shm (unlink_result k).2).
Proof.
  intros Hfree Habsent. unfold exit_status, final.
  rewrite (run_probe_fresh k i Hfree Habsent). cbn [fst snd].
  repeat split.
  - rewrite (open_creates k i Hfree Habsent). cbn [snd shm].
    apply elem_of_dom. rewrite lookup_insert_eq. eexists. reflexivity.
  - unfold unlink_result. rewrite (open_creates k i Hfree Habsent).
    cbn [snd plat_shm_unlink kernel_platform]. unfold k_shm_unlink.
    cbn [shm euid]. rewrite lookup_insert_eq. cbn [obj_uid].
    rewrite Z.eqb_refl, orb_true_r. cbn [snd shm].
    apply not_elem_of_dom, lookup_delete_eq.
Qed.

(** C5: from a namespace without "/foo", with a descriptor slot free so
    that the open can succeed, the probe exits with status 0 and the
    namespace it leaves does not have "/foo"; it is the namespace the run
    started from. *)
Theorem fresh_name_cleanup (k : kernel) :
  "/foo" ∉ dom (shm k) →
  None ∈ fdtable k →
  exit_status k = 0
  ∧ ("/foo" ∉ dom (shm (world (final k))))
  ∧ shm (world (final k)) = shm k.
Proof.
  intros Habsent Hroom.
  destruct (free_slot_elem_of _ Hroom) as [i Hfree].
  destruct (fresh_run k i Hfree (not_elem_of_dom_1 _ _ Habsent))
    as (Hstatus & Hworld & _).
  rewrite Hworld. auto.
Qed.

(** The calls of a run from a namespace without "/foo": both platform
    calls succeed, and the run is the open, the unlink, the close and the
    exit, each with the answer the platform gave. *)
Lemma fresh_run_calls (k : kernel) (i : nat) :
  free_slot (fdtable k) = Some i →
  shm k !! "/foo" = None →
  0 ≤ (open_result k).1
  ∧ 0 ≤ (unlink_result k).1
  ∧ trace (final k) =
      [ev_shm_open "/foo" (Z.lor O_RDONLY O_CREAT) S_IRWXU (open_result k).1;
       ev_shm_unlink "/foo" (unlink_result k).1;
       ev_close (open_result k).1 (close_result k).1;
       ev_exit 0]
  ∧ world (final k) = (close_result k).2.
Proof.
  intros Hfree Habsent.
  assert (0 ≤ (open_result k).1) as Ho.
  { rewrite (open_creates k i Hfree Habsent). cbn [fst]. lia. }
  assert (0 ≤ (unlink_result k).1) as Hu.
  { unfold unlink_result. rewrite (open_creates k i Hfree Habsent).
    cbn [snd plat_shm_unlink kernel_platform]. unfold k_shm_unlink.
    cbn [shm euid]. rewrite lookup_insert_eq. cbn [obj_uid].
    rewrite Z.eqb_refl, orb_true_r. cbn [fst]. lia. }
  unfold final. rewrite (run_probe_succeeded k Ho Hu). cbn [snd].
  repeat split; assumption.
Qed.

(** C6: two runs in succession, from a namespace without "/foo" and with a
    descriptor slot free, both exit with status 0.  Each run is an open
    that succeeds, an unlink that succeeds, a close and the exit; "/foo"
    is not in the namespace the run starts from, is in it after the run's
    open, and is out of it again after the run's unlink and when the run
    ends. *)
Theorem two_runs_succeed (k : kernel) :
  "/foo" ∉ dom (shm k) →
  None ∈ fdtable k →
  let k' := world (final k) in
  (exit_status k = 0
   ∧ "/foo" ∈ dom (shm (open_result k).2)
   ∧ "/foo" ∉ dom (shm (unlink_result k).2))
  ∧ ("/foo" ∉ dom (shm k'))
  ∧ (exit_status k' = 0
     ∧ "/foo" ∈ dom (shm (open_result k').2)
     ∧ "/foo" ∉ dom (shm (unlink_result k').2))
  ∧ ("/foo" ∉ dom (shm (world (final k'))))
  ∧ (0 ≤ (open_result k).1
     ∧ 0 ≤ (unlink_result k).1
     ∧ trace (final k) =
         [ev_shm_open "/foo" (Z.lor O_RDONLY O_CREAT) S_IRWXU
            (open_result k).1;
          ev_shm_unlink "/foo" (unlink_result k).1;
          ev_close (open_result k).1 (close_result k).1;
          ev_exit 0]
     ∧ world (final k) = (close_result k).2)
  ∧ (0 ≤ (open_result k').1
     ∧ 0 ≤ (unlink_result k').1
     ∧ trace (final k') =
         [ev_shm_open "/foo" (Z.lor O_RDONLY O_CREAT) S_IRWXU
            (open_result k').1;
          ev_shm_unlink "/foo" (unlink_result k').1;
          ev_close (open_result k').1 (close_result k').1;
          ev_exit 0]
     ∧ world (final k') = (close_result k').2).
Proof.
  intros Habsent Hroom k'.
  destruct (free_slot_elem_of _ Hroom) as [i Hfree].
  pose proof (not_elem_of_dom_1 _ _ Habsent) as Hnone.
  destruct (fresh_run k i Hfree Hnone) as (Hstatus & Hworld & _ & Hin & Hout).
  destruct (fresh_run_calls k i Hfree Hnone) as (Ho & Hu & Htrace & Hfinal).
  subst k'. rewrite Hworld in Hfinal. rewrite !Hworld.
  repeat split; assumption.
Qed.

(** C7: the probe calls [shm_open] once, on "/foo", with the access mode
    O_RDONLY and the flag O_CREAT (and without O_EXCL).  On the reference
    platform that call opens the object that is there, read-only, when the
    caller may read it, and creates it and opens it read-only when it is
    not there. *)
Theorem open_request_readonly_create :
  (∀ (W : Type) (P : Platform W) (w : W),
     List.filter is_open (trace (final w)) =
       [ev_shm_open "/foo" (Z.lor O_RDONLY O_CREAT) S_IRWXU (open_result w).1])
  ∧ Z.land (Z.lor O_RDONLY O_CREAT) O_ACCMODE = O_RDONLY
  ∧ has O_CREAT (Z.lor O_RDONLY O_CREAT) = true
  ∧ has O_EXCL (Z.lor O_RDONLY O_CREAT) = false
  ∧ (∀ (k : kernel) (i : nat),
       free_slot (fdtable k) = Some i →
       match shm k !! "/foo" with
       | Some o =>
           open_result k =
             (if may_access k o O_RDONLY
              then (Z.of_nat i,
                    Kernel (shm k)
                      (<[i := Some (OpenFile "/foo" O_RDONLY)]> (fdtable k))
                      (euid k) (errno_var k))
              else (-1, Kernel (shm k) (fdtable k) (euid k) EACCES))
       | None =>
           open_result k =
             (Z.of_nat i,
              Kernel (<["/foo" := ShmObject S_IRWXU (euid k)]> (shm k))
                (<[i := Some (OpenFile "/foo" O_RDONLY)]> (fdtable k))
                (euid k) (errno_var k))
       end).
Proof.
  split; [intros W P w; apply single_open_call|].
  repeat split.
  intros k i Hfree. destruct (shm k !! "/foo") as [o|] eqn:Hlook.
  - exact (open_existing k i o Hfree Hlook).
  - exact (open_creates k i Hfree Hlook).
Qed.

(** What the creation mask leaves of a mode whose bits are all permission
    bits. *)
Lemma masked_mode_permission_bits (u : Z) :
  Z.land (Z.land S_IRWXU (Z.lnot u)) (octal [7; 7; 7])
  = Z.land S_IRWXU (Z.lnot u).
Proof.
  rewrite <- Z.land_assoc, (Z.land_comm (Z.lnot u)), Z.land_assoc.
  reflexivity.
Qed.

(** The mask leaves the owner's bits whole exactly when it has none of
    them. *)
Lemma masked_mode_whole (u : Z) :
  Z.land S_IRWXU (Z.lnot u) = S_IRWXU ↔ Z.land u S_IRWXU = 0.
Proof.
  split; intros Heq; apply Z.bits_inj'; intros n Hn;
    apply (f_equal (λ x, Z.testbit x n)) in Heq; cbv beta in Heq;
    rewrite !Z.land_spec, ?Z.lnot_spec, ?Z.bits_0 in * by exact Hn;
    destruct (Z.testbit S_IRWXU n), (Z.testbit u n);
    cbn in *; congruence.
Qed.

Lemma masked_open_creates (m : masked) (i : nat) :
  free_slot (fdtable (base m)) = Some i →
  shm (base m) !! "/foo" = None →
  open_result m =
    (Z.of_nat i,
     Masked
       (Kernel
          (<["/foo" := ShmObject (Z.land S_IRWXU (Z.lnot (umask m)))
                         (euid (base m))]> (shm (base m)))
          (<[i := Some (OpenFile "/foo" O_RDONLY)]> (fdtable (base m)))
          (euid (base m)) (errno_var (base m)))
       (umask m)).
Proof.
  intros Hfree Habsent. unfold open_result.
  cbn [plat_shm_open masked_platform]. unfold m_shm_open, k_shm_open.
  rewrite Hfree, Habsent.
  change (has O_CREAT (Z.lor O_RDONLY O_CREAT)) with true. cbv iota.
  unfold install, with_mask. cbn [fst snd].
  rewrite masked_mode_permission_bits. reflexivity.
Qed.

(** C9, amended: the mode the probe passes to its open call is S_IRWXU,
    the owner's read, write and execute bits, octal 700, next to the access
    mode O_RDONLY.  When "/foo" is not there, the call creates it with the
    bits of S_IRWXU that the file mode creation mask of the process does
    not have; that is octal 700 exactly when the mask has none of the
    owner's bits.  The descriptor it returns is open read-only. *)
Theorem created_with_masked_owner_rwx :
  (∀ (W : Type) (P : Platform W) (w : W),
     List.filter is_open (trace (final w)) =
       [ev_shm_open "/foo" (Z.lor O_RDONLY O_CREAT) S_IRWXU (open_result w).1])
  ∧ S_IRWXU = octal [7; 0; 0]
  ∧ S_IRWXU = Z.lor S_IRUSR (Z.lor S_IWUSR S_IXUSR)
  ∧ Z.land (Z.lor O_RDONLY O_CREAT) O_ACCMODE = O_RDONLY
  ∧ (∀ m : masked,
       "/foo" ∉ dom (shm (base m)) →
       None ∈ fdtable (base m) →
       shm (base (open_result m).2) !! "/foo"
         = Some (ShmObject (Z.land S_IRWXU (Z.lnot (umask m)))
                   (euid (base m)))
       ∧ (Z.land S_IRWXU (Z.lnot (umask m)) = octal [7; 0; 0]
          ↔ Z.land (umask m) S_IRWXU = 0)
       ∧ 0 ≤ (open_result m).1
       ∧ fdtable (base (open_result m).2) !! Z.to_nat (open_result m).1
           = Some (Some (OpenFile "/foo" O_RDONLY))).
Proof.
  split; [intros W P w; apply single_open_call|].
  do 3 (split; [reflexivity|]).
  intros m Habsent Hroom.
  destruct (free_slot_elem_of _ Hroom) as [i Hfree].
  rewrite (masked_open_creates m i Hfree (not_elem_of_dom_1 _ _ Habsent)).
  cbn [fst snd base shm fdtable]. repeat split.
  - apply lookup_insert_eq.
  - intros Hwhole. apply masked_mode_whole. exact Hwhole.
  - intros Hnone. apply (masked_mode_whole (umask m)). exact Hnone.
  - lia.
  - rewrite Nat2Z.id. apply list_lookup_insert_eq.
    exact (lookup_lt_Some _ _ _ (free_slot_lookup _ _ Hfree)).
Qed.

(** ** The theorems at concrete starting states *)

Lemma clean_has_no_foo : "/foo" ∉ dom (shm clean).
Proof. apply not_elem_of_dom. reflexivity. Defined.

Lemma clean_has_room : None ∈ fdtable clean.
Proof. apply list_elem_of_lookup. exists 3%nat. reflexivity. Defined.

(** With every descriptor slot taken the open fails with EMFILE. *)
Lemma open_failure_reported_witness :
  (open_result full_table).1 < 0
  ∧ exit_status full_table = 1
  ∧ stderr_text (final full_table)
      = "Failed to open shm: Too many open files" +:+ LF.
Proof.
  split; [vm_compute; reflexivity|].
  destruct (open_failure_reported full_table) as (Hstatus & Htext & _).
  - vm_compute. reflexivity.
  - split; [exact Hstatus | exact Htext].
Defined.

(** Another user's object that others may read can be opened and cannot be
    unlinked. *)
Lemma unlink_failure_reported_witness :
  0 ≤ (open_result foreign_readable).1
  ∧ (unlink_result foreign_readable).1 < 0
  ∧ exit_status foreign_readable = 2.
Proof.
  split; [vm_compute; discriminate|].
  split; [vm_compute; reflexivity|].
  apply (unlink_failure_reported foreign_readable).
  - vm_compute. discriminate.
  - vm_compute. reflexivity.
Defined.

Lemma success_closes_descriptor_witness :
  0 ≤ (open_result clean).1
  ∧ 0 ≤ (unlink_result clean).1
  ∧ trace (final clean) =
      [ev_shm_open "/foo" 64 448 3; ev_shm_unlink "/foo" 0;
       ev_close 3 0; ev_exit 0].
Proof.
  split; [vm_compute; discriminate|].
  split; [vm_compute; discriminate|].
  destruct (success_closes_descriptor clean) as (_ & Htrace & _).
  - vm_compute. discriminate.
  - vm_compute. discriminate.
  - exact Htrace.
Defined.

Lemma failure_paths_skip_close_witness :
  exit_status foreign_private = 1
  ∧ ∀ fd c, ev_close fd c ∉ trace (final foreign_private).
Proof.
  split; [vm_compute; reflexivity|].
  apply (failure_paths_skip_close foreign_private).
  left. vm_compute. reflexivity.
Defined.

Lemma unlink_diagnostic_names_close_witness :
  stderr_text (final foreign_readable)
    = "Failed to close shm: Permission denied" +:+ LF
  ∧ exit_status foreign_readable = 2
  ∧ exit_status full_table = 1
  ∧ stderr_text (final full_table) ≠ stderr_text (final foreign_readable).
Proof.
  destruct (unlink_diagnostic_names_close foreign_readable)
    as (Htext & _ & _ & _ & _ & _ & Hstatus & Hother).
  - vm_compute. discriminate.
  - vm_compute. reflexivity.
  - destruct (Hother kernel kernel_platform full_table)
      as (Hone & _ & Hdiffer).
    + vm_compute. reflexivity.
    + split; [exact Htext|]. split; [exact Hstatus|].
      split; [exact Hone | exact Hdiffer].
Defined.

Lemma fresh_name_cleanup_witness :
  exit_status clean = 0 ∧ "/foo" ∉ dom (shm (world (final clean))).
Proof.
  destruct (fresh_name_cleanup clean clean_has_no_foo clean_has_room)
    as (Hstatus & Hgone & _).
  split; [exact Hstatus | exact Hgone].
Defined.

Lemma two_runs_succeed_witness :
  exit_status clean = 0 ∧ exit_status (world (final clean)) = 0.
Proof.
  destruct (two_runs_succeed clean clean_has_no_foo clean_has_room)
    as ((Hfirst & _) & _ & (Hsecond & _) & _).
  split; [exact Hfirst | exact Hsecond].
Defined.

Lemma open_request_readonly_create_witness :
  free_slot (fdtable clean) = Some 3%nat
  ∧ (open_result clean).1 = 3
  ∧ free_slot (fdtable foreign_readable) = Some 3%nat
  ∧ (open_result foreign_readable).1 = 3
  ∧ shm (open_result foreign_readable).2 = shm foreign_readable.
Proof.
  destruct open_request_readonly_create as (_ & _ & _ & _ & Hopen).
  pose proof (Hopen clean 3%nat eq_refl) as Hnew.
  pose proof (Hopen foreign_readable 3%nat eq_refl) as Hold.
  change (shm clean !! "/foo") with (@None shm_object) in Hnew.
  change (shm foreign_readable !! "/foo")
    with (Some (ShmObject (octal [6; 4; 4]) 1001)) in Hold.
  cbv iota beta in Hnew, Hold.
  rewrite Hnew, Hold.
  repeat split.
Defined.

(** Under the mask 022 the object gets the mode the probe passes. *)
Lemma created_with_masked_owner_rwx_witness :
  ("/foo" ∉ dom (shm (base masked_022)))
  ∧ None ∈ fdtable (base masked_022)
  ∧ Z.land (umask masked_022) S_IRWXU = 0
  ∧ shm (base (open_result masked_022).2) !! "/foo"
      = Some (ShmObject (octal [7; 0; 0]) 1000).
Proof.
  destruct created_with_masked_owner_rwx as (_ & _ & _ & _ & Hcreate).
  destruct (Hcreate masked_022 clean_has_no_foo clean_has_room)
    as (Hobj & Hwhole & _).
  split; [exact clean_has_no_foo|]. split; [exact clean_has_room|].
  split; [reflexivity|]. exact Hobj.
Defined.

(** Under the mask 0277 the object is created with mode 500: the owner
    cannot write what the probe asked to be created with S_IRWXU. *)
Lemma created_mode_under_mask_0277 :
  ("/foo" ∉ dom (shm (base masked_0277)))
  ∧ None ∈ fdtable (base masked_0277)
  ∧ List.filter is_open (trace (final masked_0277)) =
      [ev_shm_open "/foo" (Z.lor O_RDONLY O_CREAT) S_IRWXU 3]
  ∧ shm (base (open_result masked_0277).2) !! "/foo"
      = Some (ShmObject (octal [5; 0; 0]) 1000)
  ∧ ¬ (shm (base (open_result masked_0277).2) !! "/foo"
         = Some (ShmObject S_IRWXU 1000)).
Proof.
  split; [exact clean_has_no_foo|]. split; [exact clean_has_room|].
  split; [vm_compute; reflexivity|].
  assert (shm (base (open_result masked_0277).2) !! "/foo"
            = Some (ShmObject (octal [5; 0; 0]) 1000)) as Hobj.
  { vm_compute. reflexivity. }
  split; [exact Hobj|].
  rewrite Hobj. intros Heq. discriminate Heq.
Qed.

(** The open fails on [foreign_private] and the unlink fails on
    [foreign_readable], both for want of permission: the reason is the
    same, the exit statuses differ and so do the texts. *)
Lemma same_reason_texts_differ :
  (open_result foreign_private).1 < 0
  ∧ 0 ≤ (open_result foreign_readable).1
  ∧ (unlink_result foreign_readable).1 < 0
  ∧ plat_strerror (plat_errno (open_result foreign_private).2)
      = plat_strerror (plat_errno (unlink_result foreign_readable).2)
  ∧ exit_status foreign_private = 1
  ∧ exit_status foreign_readable = 2
  ∧ stderr_text (final foreign_private)
      = "Failed to open shm: Permission denied" +:+ LF
  ∧ stderr_text (final foreign_readable)
      = "Failed to close shm: Permission denied" +:+ LF
  ∧ stderr_text (final foreign_private)
      ≠ stderr_text (final foreign_readable).
Proof.
  split; [vm_compute; reflexivity|].
  split; [vm_compute; discriminate|].
  do 6 (split; [vm_compute; reflexivity|]).
  intros Heq. apply (f_equal (String.get 10)) in Heq.
  vm_compute in Heq. discriminate Heq.
Qed.

(** * Further properties of the probe *)

Section ProbeCalls.
Context {W : Type} `{!Platform W}.


(** X2: the probe writes nothing to stdout, and it writes to stderr
    exactly when its exit status is not 0; what it writes then starts with
    "Failed to ". *)
Theorem probe_output_discipline (w : W) :
  stdout_text (final w) = EmptyString
  ∧ (stderr_text (final w) = EmptyString ↔ exit_status w = 0)
  ∧ (exit_status w = 0
     ∨ String.prefix "Failed to " (stderr_text (final w)) = true).
Proof.
  unfold exit_status, final.
  destruct (run_probe_paths w) as [[Ho ->]|[(Ho & Hu & ->)|(Ho & Hu & ->)]];
    cbn [fst snd]; unfold open_failed, unlink_failed, succeeded;
    cbn [stdout_text stderr_text];
    (split; [reflexivity|]); (split; [split; intros Heq; try discriminate Heq|]).
  - right. reflexivity.
  - right. reflexivity.
  - reflexivity.
  - reflexivity.
  - left. reflexivity.
Qed.

(** X3: no step is retried.  The unlink is attempted once when the open
    succeeded and not at all when it failed; the close is attempted once
    when both succeeded and not at all otherwise. *)
Theorem probe_steps_at_most_once (w : W) :
  List.filter is_unlink (trace (final w)) =
    (if (open_result w).1 <? 0 then []
     else [ev_shm_unlink "/foo" (unlink_result w).1])
  ∧ List.filter is_close (trace (final w)) =
      (if ((open_result w).1 <? 0) || ((unlink_result w).1 <? 0) then []
       else [ev_close (open_result w).1 (close_result w).1]).
Proof.
  unfold final.
  destruct (run_probe_paths w) as [[Ho ->]|[(Ho & Hu & ->)|(Ho & Hu & ->)]];
    cbn [snd].
  - apply Z.ltb_lt in Ho. rewrite Ho. split; reflexivity.
  - apply Z.ltb_ge in Ho. apply Z.ltb_lt in Hu. rewrite Ho, Hu.
    split; reflexivity.
  - apply Z.ltb_ge in Ho. apply Z.ltb_ge in Hu. rewrite Ho, Hu.
    split; reflexivity.
Qed.

End ProbeCalls.

(** ** The probe on the reference platform, from any starting state *)

Lemma run_probe_full (k : kernel) :
  free_slot (fdtable k) = None →
  run_probe k =
    (1, open_failed (Kernel (shm k) (fdtable k) (euid k) EMFILE) (-1)).
Proof.
  intros Hfull. eapply run_open_failed; [|lia].
  exact (open_table_full k Hfull).
Qed.

Lemma run_probe_denied (k : kernel) (i : nat) (o : shm_object) :
  free_slot (fdtable k) = Some i →
  shm k !! "/foo" = Some o →
  may_access k o O_RDONLY = false →
  run_probe k =
    (1, open_failed (Kernel (shm k) (fdtable k) (euid k) EACCES) (-1)).
Proof.
  intros Hfree Hthere Hdenied. eapply run_open_failed; [|lia].
  change (open_result k = (-1, Kernel (shm k) (fdtable k) (euid k) EACCES)).
  rewrite (open_existing k i o Hfree Hthere), Hdenied. reflexivity.
Qed.

Lemma run_probe_not_owner (k : kernel) (i : nat) (o : shm_object) :
  free_slot (fdtable k) = Some i →
  shm k !! "/foo" = Some o →
  may_access k o O_RDONLY = true →
  may_unlink k o = false →
  run_probe k =
    (2, unlink_failed
          (Kernel (shm k)
             (<[i := Some (OpenFile "/foo" O_RDONLY)]> (fdtable k))
             (euid k) EACCES)
          (Z.of_nat i) (-1)).
Proof.
  intros Hfree Hthere Hread Hown. eapply run_unlink_failed.
  - pose proof (open_existing k i o Hfree Hthere) as Hopen.
    rewrite Hread in Hopen. exact Hopen.
  - lia.
  - cbn [plat_shm_unlink kernel_platform]. unfold k_shm_unlink.
    cbn [shm euid]. rewrite Hthere. unfold may_unlink in Hown. rewrite Hown.
    reflexivity.
  - lia.
Qed.

Lemma run_probe_owner (k : kernel) (i : nat) (o : shm_object) :
  free_slot (fdtable k) = Some i →
  shm k !! "/foo" = Some o →
  may_access k o O_RDONLY = true →
  may_unlink k o = true →
  run_probe k =
    (0, succeeded
          (Kernel (delete "/foo" (shm k)) (fdtable k) (euid k) (errno_var k))
          (Z.of_nat i) 0 0).
Proof.
  intros Hfree Hthere Hread Hown.
  pose proof (free_slot_lookup _ _ Hfree) as Hslot.
  pose proof (lookup_lt_Some _ _ _ Hslot) as Hlen.
  eapply run_succeeded.
  - pose proof (open_existing k i o Hfree Hthere) as Hopen.
    rewrite Hread in Hopen. exact Hopen.
  - lia.
  - cbn [plat_shm_unlink kernel_platform]. unfold k_shm_unlink.
    cbn [shm euid]. rewrite Hthere. unfold may_unlink in Hown. rewrite Hown.
    reflexivity.
  - lia.
  - cbn [plat_close kernel_platform]. unfold k_close.
    cbn [fdtable shm euid errno_var].
    destruct (Z.ltb_spec (Z.of_nat i) 0) as [Hneg|_]; [lia|].
    rewrite Nat2Z.id, list_lookup_insert_eq by exact Hlen.
    rewrite list_insert_insert_eq, (list_insert_id _ _ _ Hslot).
    reflexivity.
Qed.

(** The five ways a run on the reference platform can go, by the state it
    starts in. *)
Lemma kernel_run_cases (k : kernel) :
  (free_slot (fdtable k) = None ∧
   run_probe k =
     (1, open_failed (Kernel (shm k) (fdtable k) (euid k) EMFILE) (-1)))
  ∨ (∃ i, free_slot (fdtable k) = Some i ∧ shm k !! "/foo" = None ∧
       run_probe k = (0, succeeded k (Z.of_nat i) 0 0))
  ∨ (∃ i o, free_slot (fdtable k) = Some i ∧ shm k !! "/foo" = Some o ∧
       may_access k o O_RDONLY = false ∧
       run_probe k =
         (1, open_failed (Kernel (shm k) (fdtable k) (euid k) EACCES) (-1)))
  ∨ (∃ i o, free_slot (fdtable k) = Some i ∧ shm k !! "/foo" = Some o ∧
       may_access k o O_RDONLY = true ∧ may_unlink k o = false ∧
       run_probe k =
         (2, unlink_failed
               (Kernel (shm k)
                  (<[i := Some (OpenFile "/foo" O_RDONLY)]> (fdtable k))
                  (euid k) EACCES)
               (Z.of_nat i) (-1)))
  ∨ (∃ i o, free_slot (fdtable k) = Some i ∧ shm k !! "/foo" = Some o ∧
       may_access k o O_RDONLY = true ∧ may_unlink k o = true ∧
       run_probe k =
         (0, succeeded
               (Kernel (delete "/foo" (shm k)) (fdtable k) (euid k)
                  (errno_var k))
               (Z.of_nat i) 0 0)).
Proof.
  destruct (free_slot (fdtable k)) as [i|] eqn:Hfree.
  2: { left. split; [reflexivity | exact (run_probe_full k Hfree)]. }
  right. destruct (shm k !! "/foo") as [o|] eqn:Hthere.
  2: { left. exists i. repeat split; try assumption. exact (run_probe_fresh k i Hfree Hthere). }
  right. destruct (may_access k o O_RDONLY) eqn:Hread.
  2: { left. exists i, o. repeat split; try assumption.
       exact (run_probe_denied k i o Hfree Hthere Hread). }
  right. destruct (may_unlink k o) eqn:Hown.
  - right. exists i, o. repeat split; try assumption.
    exact (run_probe_owner k i o Hfree Hthere Hread Hown).
  - left. exists i, o. repeat split; try assumption.
    exact (run_probe_not_owner k i o Hfree Hthere Hread Hown).
Qed.

(** X4: the probe does not tell an object it created from one that was
    there before.  When "/foo" exists, belongs to the caller, who may read
    it, and a descriptor slot is free, the open opens the object that is
    there and leaves the namespace as it is, the unlink removes it, the
    descriptor is closed and the run exits with status 0: the object is
    gone afterwards, and nothing else in the namespace or the descriptor
    table has changed. *)
Theorem existing_object_removed (k : kernel) (o : shm_object) :
  shm k !! "/foo" = Some o →
  obj_uid o = euid k →
  may_access k o O_RDONLY = true →
  None ∈ fdtable k →
  exit_status k = 0
  ∧ (∃ i : nat,
       free_slot (fdtable k) = Some i
       ∧ open_result k =
           (Z.of_nat i,
            Kernel (shm k)
              (<[i := Some (OpenFile "/foo" O_RDONLY)]> (fdtable k))
              (euid k) (errno_var k))
       ∧ trace (final k) =
           [ev_shm_open "/foo" (Z.lor O_RDONLY O_CREAT) S_IRWXU (Z.of_nat i);
            ev_shm_unlink "/foo" 0;
            ev_close (Z.of_nat i) 0;
            ev_exit 0])
  ∧ shm (world (final k)) = delete "/foo" (shm k)
  ∧ ("/foo" ∉ dom (shm (world (final k))))
  ∧ fdtable (world (final k)) = fdtable k.
Proof.
  intros Hthere Howner Hread Hroom.
  destruct (free_slot_elem_of _ Hroom) as [i Hfree].
  assert (may_unlink k o = true) as Hown.
  { unfold may_unlink. rewrite Howner, Z.eqb_refl. apply orb_true_r. }
  unfold exit_status, final.
  rewrite (run_probe_owner k i o Hfree Hthere Hread Hown).
  cbn [fst snd succeeded world shm fdtable trace].
  split; [reflexivity|]. split.
  - exists i. split; [exact Hfree|]. split; [|reflexivity].
    rewrite (open_existing k i o Hfree Hthere), Hread. reflexivity.
  - repeat split. apply not_elem_of_dom, lookup_delete_eq.
Qed.

(** X5: in every run the objects under names other than "/foo" stay as
    they were, and so does the identity of the caller. *)
Theorem other_names_untouched (k : kernel) (name : string) :
  name ≠ "/foo" →
  shm (world (final k)) !! name = shm k !! name
  ∧ euid (world (final k)) = euid k.
Proof.
  intros Hother. unfold final.
  destruct (kernel_run_cases k)
    as [(_ & ->)|[(i & _ & _ & ->)|[(i & o & _ & _ & _ & ->)
       |[(i & o & _ & _ & _ & _ & ->)|(i & o & _ & _ & _ & _ & ->)]]]];
    cbn [snd open_failed unlink_failed succeeded world shm euid];
    (split; [|reflexivity]); try reflexivity.
  apply lookup_delete_ne. congruence.
Qed.

(** X6: every descriptor that was open when the run started is still open
    on the same description when it ends.  A run that exits with status 2
    leaves one descriptor more, the one it opened on "/foo"; every other
    run leaves the descriptor table as it found it. *)
Theorem descriptors_after_run (k : kernel) :
  (∀ (j : nat) (f : open_file),
     fdtable k !! j = Some (Some f) →
     fdtable (world (final k)) !! j = Some (Some f))
  ∧ (if exit_status k =? 2
     then ∃ i : nat,
            free_slot (fdtable k) = Some i
            ∧ fdtable (world (final k)) =
                <[i := Some (OpenFile "/foo" O_RDONLY)]> (fdtable k)
     else fdtable (world (final k)) = fdtable k).
Proof.
  unfold exit_status, final.
  destruct (kernel_run_cases k)
    as [(_ & ->)|[(i & _ & _ & ->)|[(i & o & _ & _ & _ & ->)
       |[(i & o & Hfree & _ & _ & _ & ->)|(i & o & _ & _ & _ & _ & ->)]]]];
    cbn [fst snd open_failed unlink_failed succeeded world fdtable];
    change (0 =? 2) with false; change (1 =? 2) with false;
    change (2 =? 2) with true; cbv iota;
    try (split; [intros j f Hj; exact Hj | reflexivity]).
  split.
  - intros j f Hj. rewrite list_lookup_insert_ne; [exact Hj|].
    intros <-. rewrite (free_slot_lookup _ _ Hfree) in Hj. discriminate.
  - exists i. split; [exact Hfree | reflexivity].
Qed.

(** X8: once a run has exited with status 0, every further run does so
    too and leaves the platform as it found it, without "/foo". *)
Theorem successful_run_repeats (k : kernel) :
  exit_status k = 0 →
  ∀ n : nat,
    Nat.iter (S n) rerun k = rerun k
    ∧ exit_status (Nat.iter (S n) rerun k) = 0
    ∧ "/foo" ∉ dom (shm (Nat.iter (S n) rerun k)).
Proof.
  intros Hstatus.
  assert (∃ i, free_slot (fdtable (rerun k)) = Some i
               ∧ shm (rerun k) !! "/foo" = None) as (i & Hfree & Habsent).
  { revert Hstatus. unfold rerun, exit_status, final.
    destruct (kernel_run_cases k)
      as [(_ & ->)|[(i & Hfree & Hthere & ->)|[(i & o & _ & _ & _ & ->)
         |[(i & o & _ & _ & _ & _ & ->)|(i & o & Hfree & _ & _ & _ & ->)]]]];
      cbn [fst snd open_failed unlink_failed succeeded world shm fdtable];
      intros Hstatus; try discriminate Hstatus.
    - exists i. split; [exact Hfree | exact Hthere].
    - exists i. split; [exact Hfree | apply lookup_delete_eq]. }
  destruct (fresh_run (rerun k) i Hfree Habsent) as (Hzero & Hfix & _).
  assert (∀ n, Nat.iter (S n) rerun k = rerun k) as Hiter.
  { induction n as [|n IH]; [reflexivity|].
    change (rerun (Nat.iter (S n) rerun k) = rerun k). rewrite IH.
    exact Hfix. }
  intros n. rewrite Hiter. repeat split.
  - exact Hzero.
  - apply not_elem_of_dom. exact Habsent.
Qed.

(** * Properties of the hello programs *)

Lemma argv_of_second (args : list string) :
  (1 < length args)%nat →
  ∃ p, args !! 1%nat = Some p ∧ argv_of args !! 1%nat = Some (Some p).
Proof.
  intros Hlen. destruct (lookup_lt_is_Some_2 args 1 Hlen) as [p Hp].
  exists p. split; [exact Hp|]. unfold argv_of.
  rewrite lookup_app_l by (rewrite length_fmap; exact Hlen).
  rewrite list_lookup_fmap, Hp. reflexivity.
Qed.

(** X9: started the way a hosted C environment starts a program, the
    filtering example never reads past [argv]; it calls [hello] once, with
    the first argument after the program name when there is one and with
    DEFAULT_PERSON (or "stranger" when the build does not define it) when
    there is none, and returns 0.  Further arguments are ignored. *)
Theorem filtering_hosted (d : option string) (args : list string) :
  Filtering.main d (argc_of args) (argv_of args) =
    Some ([default (default "stranger" d) (args !! 1%nat)], 0).
Proof.
  unfold Filtering.main, argc_of.
  destruct (Z.ltb_spec 1 (Z.of_nat (length args))) as [Hlen|Hlen].
  - destruct (argv_of_second args) as (p & Hp & ->); [lia|].
    rewrite Hp. reflexivity.
  - rewrite (lookup_ge_None_2 args 1) by lia. destruct d; reflexivity.
Qed.

(** X10: the same for the composition example, whose fallback is always
    "stranger". *)
Theorem composition_hosted (args : list string) :
  Composition.main (argc_of args) (argv_of args) =
    Some ([default "stranger" (args !! 1%nat)], 0).
Proof.
  unfold Composition.main, argc_of.
  destruct (Z.ltb_spec 1 (Z.of_nat (length args))) as [Hlen|Hlen].
  - destruct (argv_of_second args) as (p & Hp & ->); [lia|].
    rewrite Hp. reflexivity.
  - rewrite (lookup_ge_None_2 args 1) by lia. reflexivity.
Qed.

(** X11: the two programs differ only in the fallback name.  On every
    input, also outside what a hosted environment passes, the composition
    example does what the filtering example does when built without
    DEFAULT_PERSON, or with DEFAULT_PERSON defined as "stranger". *)
Theorem hello_programs_agree (argc : Z) (argv : list (option string)) :
  Composition.main argc argv = Filtering.main None argc argv
  ∧ Composition.main argc argv = Filtering.main (Some "stranger") argc argv.
Proof.
  unfold Composition.main, Filtering.main.
  destruct (1 <? argc); [destruct (argv !! 1%nat) as [[p|]|]|];
    split; reflexivity.
Qed.

(** X12: [argv] is read at index 1 and only when [argc] is above 1: the
    run is defined exactly when [argc] is at most 1 or [argv] has at least
    two entries. *)
Theorem hello_reads_in_bounds (d : option string)
    (argc : Z) (argv : list (option string)) :
  is_Some (Filtering.main d argc argv) ↔ argc ≤ 1 ∨ (2 ≤ length argv)%nat.
Proof.
  unfold Filtering.main.
  destruct (Z.ltb_spec 1 argc) as [Hargc|Hargc].
  - destruct (argv !! 1%nat) as [person|] eqn:Hlook.
    + split; [intros _|intros _; cbn; eexists; reflexivity].
      right. apply lookup_lt_Some in Hlook. lia.
    + split.
      * intros [run Hrun]. discriminate Hrun.
      * intros [Hle|Hlen]; [lia|]. apply lookup_ge_None_1 in Hlook. lia.
  - split; [intros _; left; exact Hargc|].
    intros _. cbn. eexists. reflexivity.
Qed.

(** X13: every defined run calls [hello] exactly once and returns 0.  The
    name passed is the one [argv] holds at index 1 when [argc] is above 1
    and that entry is not null, whatever DEFAULT_PERSON is and also when
    the name is empty; otherwise it is the fallback. *)
Theorem hello_greets_once (d : option string)
    (argc : Z) (argv : list (option string))
    (calls : list string) (ret : Z) :
  Filtering.main d argc argv = Some (calls, ret) →
  ret = 0
  ∧ calls =
      [if 1 <? argc
       then default (default "stranger" d) (mjoin (argv !! 1%nat))
       else default "stranger" d].
Proof.
  unfold Filtering.main.
  destruct (1 <? argc); [destruct (argv !! 1%nat) as [[p|]|]|];
    destruct d; cbn; intros Hrun; try discriminate Hrun;
    injection Hrun as <- <-; split; reflexivity.
Qed.

Lemma hello_reads_in_bounds_witness :
  is_Some (Filtering.main None 0 []).
Proof.
  apply (hello_reads_in_bounds None 0 []). left. lia.
Defined.

Lemma hello_greets_once_witness :
  Filtering.main (Some "world") 3 [Some "hello"; Some EmptyString; Some "x"; None]
    = Some ([EmptyString], 0)
  ∧ [EmptyString] =
      [default (default "stranger" (Some "world"))
         (mjoin ([Some "hello"; Some EmptyString; Some "x"; None] !! 1%nat))].
Proof.
  split; [reflexivity|].
  apply (hello_greets_once (Some "world") 3
           [Some "hello"; Some EmptyString; Some "x"; None] [EmptyString] 0).
  reflexivity.
Defined.

(** * Properties of the pony header *)

Lemma string_length_app (a b : string) :
  String.length (a +:+ b) = (String.length a + String.length b)%nat.
Proof. induction a as [|c a IH]; simpl; [reflexivity | f_equal; exact IH]. Qed.

Lemma substring_whole (a : string) :
  substring 0 (String.length a) a = a.
Proof. induction a as [|c a IH]; simpl; [reflexivity | f_equal; exact IH]. Qed.

Lemma substring_app_l (a b : string) (n : nat) :
  (n ≤ String.length a)%nat →
  substring 0 n (a +:+ b) = substring 0 n a.
Proof.
  revert n. induction a as [|c a IH]; intros n Hn; simpl in Hn.
  - replace n with 0%nat by lia. destruct b; reflexivity.
  - destruct n as [|n]; [reflexivity|]. simpl. rewrite IH by lia. reflexivity.
Qed.

Lemma substring_app_r (a b : string) (n m : nat) :
  substring (String.length a + n) m (a +:+ b) = substring n m b.
Proof. induction a as [|c a IH]; simpl; [reflexivity | exact IH]. Qed.

Lemma string_app_inj_r (a b c : string) :
  a +:+ c = b +:+ c → a = b.
Proof.
  revert b. induction a as [|x a IH]; intros [|y b] Heq.
  - reflexivity.
  - apply (f_equal String.length) in Heq.
    rewrite !string_length_app in Heq. simpl in Heq. lia.
  - apply (f_equal String.length) in Heq.
    rewrite !string_length_app in Heq. simpl in Heq. lia.
  - simpl in Heq. injection Heq as -> Heq. rewrite (IH b Heq). reflexivity.
Qed.

(** X14: the story can be read back from the text MAKE_PONY builds: two
    stories that give the same text are the same story. *)
Theorem MAKE_PONY_inj (a b : string) :
  MAKE_PONY a = MAKE_PONY b → a = b.
Proof.
  unfold MAKE_PONY. intros Heq.
  apply (String.app_inj PONY_BEGIN) in Heq.
  exact (string_app_inj_r a b PONY_END Heq).
Qed.

(** X15: the text is the opening sentence, the story and the closing
    sentence with nothing put between them: it is 78 characters longer than
    the story, its first 35 characters are PONY_BEGIN, the story follows
    at once and PONY_END follows the story at once. *)
Theorem MAKE_PONY_layout (story : string) :
  String.length (MAKE_PONY story) = (78 + String.length story)%nat
  ∧ substring 0 35 (MAKE_PONY story) = PONY_BEGIN
  ∧ substring 35 (String.length story) (MAKE_PONY story) = story
  ∧ substring (35 + String.length story) 43 (MAKE_PONY story) = PONY_END.
Proof.
  unfold MAKE_PONY. repeat split.
  - rewrite !string_length_app.
    change (String.length PONY_BEGIN) with 35%nat.
    change (String.length PONY_END) with 43%nat. lia.
  - rewrite (substring_app_l PONY_BEGIN _ 35); reflexivity.
  - change 35%nat with (String.length PONY_BEGIN + 0)%nat.
    rewrite substring_app_r, substring_app_l by reflexivity.
    apply substring_whole.
  - change (35 + String.length story)%nat
      with (String.length PONY_BEGIN + String.length story)%nat.
    rewrite substring_app_r.
    replace (String.length story) with (String.length story + 0)%nat at 1
      by lia.
    rewrite substring_app_r. reflexivity.
Qed.

Lemma MAKE_PONY_inj_witness :
  MAKE_PONY "The pony ate." = MAKE_PONY "The pony ate."
  ∧ "The pony ate." = "The pony ate.".
Proof.
  split; [reflexivity|].
  apply (MAKE_PONY_inj "The pony ate." "The pony ate."). reflexivity.
Defined.

(** * The further properties at concrete inputs *)

Lemma own_object_has_room : None ∈ fdtable own_object.
Proof. apply list_elem_of_lookup. exists 3%nat. reflexivity. Defined.


Lemma probe_output_discipline_witness :
  stdout_text (final full_table) = EmptyString
  ∧ exit_status full_table ≠ 0
  ∧ stderr_text (final full_table) ≠ EmptyString.
Proof.
  destruct (probe_output_discipline full_table) as (Hout & Hiff & _).
  split; [exact Hout|].
  assert (exit_status full_table ≠ 0) as Hstatus.
  { vm_compute. discriminate. }
  split; [exact Hstatus|].
  intros Hempty. apply Hstatus, Hiff. exact Hempty.
Defined.

Lemma existing_object_removed_witness :
  "/foo" ∈ dom (shm own_object)
  ∧ exit_status own_object = 0
  ∧ ("/foo" ∉ dom (shm (world (final own_object))))
  ∧ shm (open_result own_object).2 = shm own_object.
Proof.
  split.
  { apply elem_of_dom. exists (ShmObject (octal [6; 0; 0]) 1000).
    vm_compute. reflexivity. }
  destruct (existing_object_removed own_object
              (ShmObject (octal [6; 0; 0]) 1000))
    as (Hstatus & (i & _ & Hopen & _) & _ & Hgone & _).
  - vm_compute. reflexivity.
  - reflexivity.
  - vm_compute. reflexivity.
  - exact own_object_has_room.
  - split; [exact Hstatus|]. split; [exact Hgone|].
    rewrite Hopen. reflexivity.
Defined.

Lemma other_names_untouched_witness :
  shm (world (final own_object)) !! "/bar" = shm own_object !! "/bar".
Proof.
  apply (other_names_untouched own_object "/bar"). discriminate.
Defined.

Lemma descriptors_after_run_witness :
  fdtable foreign_readable !! 0%nat = Some tty
  ∧ fdtable (world (final foreign_readable)) !! 0%nat = Some tty
  ∧ fdtable (world (final foreign_readable)) !! 3%nat
      = Some (Some (OpenFile "/foo" O_RDONLY)).
Proof.
  destruct (descriptors_after_run foreign_readable) as (Hkept & Hleak).
  split; [reflexivity|]. split.
  - apply Hkept. reflexivity.
  - change (exit_status foreign_readable =? 2) with true in Hleak.
    destruct Hleak as (i & Hfree & ->).
    change (free_slot (fdtable foreign_readable)) with (Some 3%nat) in Hfree.
    injection Hfree as <-. reflexivity.
Defined.

Lemma successful_run_repeats_witness :
  exit_status own_object = 0
  ∧ exit_status (rerun (rerun (rerun own_object))) = 0.
Proof.
  assert (exit_status own_object = 0) as Hfirst by (vm_compute; reflexivity).
  split; [exact Hfirst|].
  destruct (successful_run_repeats own_object Hfirst 2) as (_ & Hthird & _).
  exact Hthird.
Defined.
